(** * Customer transaction dashboard ([app.py]): the load step and the
      [update_graphs] callback, embedded in Rocq.

    The program is a pandas script.  Its data are data frames, so the
    embedding has two layers:

    - a small model of the pandas operations the script calls ([pd.cut],
      [groupby(...).sum()], [groupby(...).mean()], [pd.Grouper(freq='M')],
      [sort_values], [head], [isin], boolean-mask indexing, [copy], column
      assignment), each written after the documented behaviour of the pandas
      releases that accept [freq='M'] (1.x and 2.x; there [groupby] has
      [sort=True], [dropna=True] and, for a categorical key,
      [observed=False]);
    - the script itself: the module-level load (lines 20-27) and
      [update_graphs] (lines 223-292), statement by statement, over a heap of
      frame objects, since the callback reads the global [df] and assigns
      columns to [filtered_df] in place.

    Numbers: a float64 cell is [option Q]; [Some q] is a finite value, taken
    as an exact rational, and [None] is NaN, pandas' missing value.  Text
    cells are [option string] with [None] for a missing cell. *)

From Stdlib Require Import ZArith QArith Lia Lqa Strings.Ascii.
From stdpp Require Import base option list sorting gmap strings.

Local Open Scope Z_scope.
Local Open Scope list_scope.

(** ** Cells and dates *)

Record date := mkDate { year : Z; month : Z; day : Z }.

(** The number of the calendar month a date falls in; consecutive calendar
    months have consecutive numbers. *)
Definition month_index (d : date) : Z := year d * 12 + (month d - 1).

Definition Qltb (a b : Q) : bool := negb (Qle_bool b a).

(** ** Series reductions *)

(** [Series.sum()]: NaN cells are skipped, the sum of nothing is 0. *)
Definition sum_skipna (l : list (option Q)) : Q :=
  foldl Qplus 0%Q (omap id l).

(** [Series.mean()]: NaN cells are skipped, the mean of nothing is NaN. *)
Definition mean_skipna (l : list (option Q)) : option Q :=
  match omap id l with
  | [] => None
  | xs => Some (foldl Qplus 0%Q xs / inject_Z (Z.of_nat (length xs)))%Q
  end.

(** ** [pd.cut(x, bins, labels)] with the defaults [right=True],
       [include_lowest=False] *)

Inductive edge := Finite (b : Q) | PosInf.

(** [e < x] for a bin edge [e] and a finite [x]. *)
Definition edge_ltb (e : edge) (x : Q) : bool :=
  match e with
  | Finite b => Qltb b x
  | PosInf => false
  end.

(** [np.searchsorted(bins, x, side='left')]: the first index [i] with
    [x <= bins[i]], or [len(bins)]. *)
Fixpoint searchsorted_left (bins : list edge) (x : Q) : nat :=
  match bins with
  | [] => O
  | e :: bins' => if edge_ltb e x then S (searchsorted_left bins' x) else O
  end.

(** One value through [pd.cut]: a value at index 0 (not above the lowest
    edge) or at index [len(bins)] (above the highest edge) gets NaN, and so
    does NaN; the others get the label of the interval [(bins[i-1], bins[i]]]. *)
Definition cut1 (bins : list edge) (labels : list string) (x : option Q)
  : option string :=
  match x with
  | None => None
  | Some q =>
      let i := searchsorted_left bins q in
      if (Nat.eqb i 0 || Nat.eqb i (length bins))%bool then None
      else labels !! (i - 1)%nat
  end.

Definition cut (xs : list (option Q)) (bins : list edge) (labels : list string)
  : list (option string) :=
  map (cut1 bins labels) xs.

(** ** [groupby] *)

(** Insertion of a key in an ascending list without duplicates. *)
Fixpoint insert_key (k : string) (l : list string) : list string :=
  match l with
  | [] => [k]
  | x :: l' =>
      match String.compare k x with
      | Lt => k :: l
      | Eq => l
      | Gt => x :: insert_key k l'
      end
  end.

(** The group keys of [groupby(col)] on a text column: the distinct
    non-missing values in ascending order ([sort=True], [dropna=True]). *)
Definition group_keys (keys : list (option string)) : list string :=
  foldr insert_key [] (omap id keys).

(** The cells of [vals] on the rows whose key is [k]. *)
Fixpoint group_values {A} (k : string) (keys : list (option string))
    (vals : list A) : list A :=
  match keys, vals with
  | key :: keys', v :: vals' =>
      if decide (key = Some k) then v :: group_values k keys' vals'
      else group_values k keys' vals'
  | _, _ => []
  end.

(** [df.groupby(key)[val].sum()] / [.mean()] on a text key. *)
Definition groupby_agg {B} (agg : list (option Q) → B)
    (keys : list (option string)) (vals : list (option Q)) : list (string * B) :=
  map (λ k, (k, agg (group_values k keys vals))) (group_keys keys).

(** The same on a categorical key with categories [cats]: one group per
    category in category order, observed or not ([observed=False]). *)
Definition groupby_cat_agg {B} (agg : list (option Q) → B) (cats : list string)
    (keys : list (option string)) (vals : list (option Q)) : list (string * B) :=
  map (λ k, (k, agg (group_values k keys vals))) cats.

(** [df.groupby(pd.Grouper(key=..., freq='M'))[val].sum()]: rows without a
    date (NaT) are dropped; there is one bin per calendar month from the month
    of the earliest date to the month of the latest one, whether or not a row
    falls in it; no bin at all when no row has a date. *)
Fixpoint month_values (m : Z) (dates : list (option date))
    (vals : list (option Q)) : list (option Q) :=
  match dates, vals with
  | d :: dates', v :: vals' =>
      if decide (month_index <$> d = Some m) then v :: month_values m dates' vals'
      else month_values m dates' vals'
  | _, _ => []
  end.

Definition months_of (dates : list (option date)) : list Z :=
  omap (fmap month_index) dates.

Definition min_list (x : Z) (l : list Z) : Z := foldr Z.min x l.
Definition max_list (x : Z) (l : list Z) : Z := foldr Z.max x l.

Definition groupby_month_sum (dates : list (option date))
    (vals : list (option Q)) : list (Z * Q) :=
  match months_of dates with
  | [] => []
  | m :: ms =>
      let lo := min_list m ms in
      let hi := max_list m ms in
      map (λ b, (b, sum_skipna (month_values b dates vals)))
          (seqZ lo (hi - lo + 1))
  end.

(** ** [sort_values(col, ascending=False)] *)

(** Descending insertion that keeps the earlier of two equal values first.
    pandas sorts with numpy's default [quicksort], which promises no order
    among equal values; what is proved of the sort below is the descending
    order and the entries, which hold of any sort. *)
Fixpoint insert_desc {A} (x : A * Q) (l : list (A * Q)) : list (A * Q) :=
  match l with
  | [] => [x]
  | y :: l' => if Qltb (snd x) (snd y) then y :: insert_desc x l' else x :: l
  end.

Definition sort_values_desc {A} (l : list (A * Q)) : list (A * Q) :=
  foldr insert_desc [] l.

(** ** The table *)

(** One line of [transactions.csv] as [pd.read_csv] returns it: every cell
    may be missing; the two date columns are still text. *)
Record csv_row := {
  csv_Transaction_ID : option Z;
  csv_CustomerID : option Z;
  csv_Transaction_Date : option string;
  csv_Date : option string;
  csv_Product_Category : option string;
  csv_Product_Description : option string;
  csv_Gender : option string;
  csv_Location : option string;
  csv_Tenure_Months : option Q;
  csv_Quantity : option Q;
  csv_Avg_Price : option Q;
  csv_Online_Spend : option Q;
  csv_Offline_Spend : option Q;
  csv_Discount_pct : option Q;
  csv_Coupon_Status : option string;
  csv_other : list (string * option string)
}.

(** One row of the global [df] after the preprocessing of lines 23-27. *)
Record row := {
  Transaction_ID : option Z;
  CustomerID : option Z;
  Transaction_Date : option date;
  Date : option date;
  Product_Category : option string;
  Product_Description : option string;
  Gender : option string;
  Location : string;
  Tenure_Months : option Q;
  Quantity : option Q;
  Avg_Price : option Q;
  Online_Spend : option Q;
  Offline_Spend : option Q;
  Discount_pct : option Q;
  Coupon_Status : option string;
  Total_Spend : option Q;
  Revenue : option Q;
  other : list (string * option string)
}.

(** A data frame object: its rows, the categories of the categorical
    [Location] column, and the two columns [update_graphs] adds, absent until
    they are assigned. *)
Record frame := {
  rows : list row;
  Location_categories : list string;
  Tenure_Group : option (list (option string));
  Discount_Group : option (list (option string))
}.

(** ** [str.title()] on ASCII text *)

Definition is_upper (c : ascii) : bool :=
  let n := nat_of_ascii c in (Nat.leb 65 n && Nat.leb n 90)%bool.
Definition is_lower (c : ascii) : bool :=
  let n := nat_of_ascii c in (Nat.leb 97 n && Nat.leb n 122)%bool.
Definition to_upper (c : ascii) : ascii :=
  if is_lower c then ascii_of_nat (nat_of_ascii c - 32) else c.
Definition to_lower (c : ascii) : ascii :=
  if is_upper c then ascii_of_nat (nat_of_ascii c + 32) else c.

Fixpoint title_from (previous_is_cased : bool) (s : string) : string :=
  match s with
  | EmptyString => EmptyString
  | String c s' =>
      String (if previous_is_cased then to_lower c else to_upper c)
             (title_from (is_upper c || is_lower c) s')
  end.

Definition title (s : string) : string := title_from false s.

(** [str(x)] on a cell of the [Location] column: the text itself, and
    ["nan"] for a missing cell. *)
Definition str (x : option string) : string := default "nan"%string x.

(** ** Module-level load (lines 20-27) *)

(** Column arithmetic, cell by cell: NaN when either cell is NaN. *)
Definition add_cells (a b : option Q) : option Q :=
  x ← a; y ← b; Some (x + y)%Q.
Definition mul_cells (a b : option Q) : option Q :=
  x ← a; y ← b; Some (x * y)%Q.

Section Load.

(** [pd.to_datetime] on one non-missing text cell; [None] when pandas
    cannot parse the text and raises. *)
Variable parse_datetime : string → option date.

(** [pd.to_datetime(col)]: a missing cell becomes NaT, one unparsable cell
    makes the whole call raise. *)
Definition to_datetime1 (c : option string) : option (option date) :=
  match c with
  | None => Some None
  | Some s => Some <$> parse_datetime s
  end.

Definition load_row (r : csv_row) : option row :=
  td ← to_datetime1 (csv_Transaction_Date r);
  d ← to_datetime1 (csv_Date r);
  Some {| Transaction_ID := csv_Transaction_ID r;
          CustomerID := csv_CustomerID r;
          Transaction_Date := td;
          Date := d;
          Product_Category := csv_Product_Category r;
          Product_Description := csv_Product_Description r;
          Gender := csv_Gender r;
          Location := title (str (csv_Location r));
          Tenure_Months := csv_Tenure_Months r;
          Quantity := csv_Quantity r;
          Avg_Price := csv_Avg_Price r;
          Online_Spend := csv_Online_Spend r;
          Offline_Spend := csv_Offline_Spend r;
          Discount_pct := csv_Discount_pct r;
          Coupon_Status := csv_Coupon_Status r;
          Total_Spend := add_cells (csv_Offline_Spend r) (csv_Online_Spend r);
          Revenue := mul_cells (csv_Quantity r) (csv_Avg_Price r);
          other := csv_other r |}.

(** The global [df]; [None] when a statement of the load raises.
    [astype('category')] fixes the categories of [Location]: its distinct
    values in ascending order. *)
Definition load (csv : list csv_row) : option frame :=
  rs ← mapM load_row csv;
  Some {| rows := rs;
          Location_categories := group_keys (map (λ r, Some (Location r)) rs);
          Tenure_Group := None;
          Discount_Group := None |}.

End Load.

(** ** Frame objects and the callback's effects *)

(** The callback works on frame objects: [df] is a module-level name bound
    to one, [df.copy()] and boolean-mask indexing make new ones, a column
    assignment changes one in place.  A heap maps object addresses to
    frames; a statement is a function from the heap to a value and the new
    heap, or to [None] when it raises. *)
Abbreviation heap := (gmap nat frame).

Definition M (A : Type) : Type := heap → option (A * heap).

#[export] Instance M_ret : MRet M := λ A (x : A) h, Some (x, h).
#[export] Instance M_bind : MBind M := λ A B (k : A → M B) (m : M A) h,
  match m h with
  | Some (x, h') => k x h'
  | None => None
  end.

(** Reading the object at an address. *)
Definition get (l : nat) : M frame := λ h, f ← h !! l; Some (f, h).

(** A new object at an unused address. *)
Definition alloc (f : frame) : M nat :=
  λ h, let l := fresh (dom h) in Some (l, <[l := f]> h).

(** [x.copy()] *)
Definition frame_copy (l : nat) : M nat := f ← get l; alloc f.

(** [col.isin(values)]: a missing cell is in no list of texts. *)
Definition cell_in (values : list string) (c : option string) : bool :=
  match c with
  | Some s => bool_decide (s ∈ values)
  | None => false
  end.

Definition isin (col : list (option string)) (values : list string) : list bool :=
  map (cell_in values) col.

Fixpoint select {A} (mask : list bool) (l : list A) : list A :=
  match mask, l with
  | b :: mask', x :: l' => if b then x :: select mask' l' else select mask' l'
  | _, _ => []
  end.

Definition frame_select (mask : list bool) (f : frame) : frame :=
  {| rows := select mask (rows f);
     Location_categories := Location_categories f;
     Tenure_Group := select mask <$> Tenure_Group f;
     Discount_Group := select mask <$> Discount_Group f |}.

(** [x[mask]]: a new frame with the rows where the mask holds; a categorical
    column keeps all its categories. *)
Definition getitem_mask (l : nat) (mask : list bool) : M nat :=
  f ← get l; alloc (frame_select mask f).

(** [x['Tenure_Group'] = col] and [x['Discount_Group'] = col]: the object at
    the address is changed. *)
Definition set_Tenure_Group (col : list (option string)) (f : frame) : frame :=
  {| rows := rows f;
     Location_categories := Location_categories f;
     Tenure_Group := Some col;
     Discount_Group := Discount_Group f |}.

Definition set_Discount_Group (col : list (option string)) (f : frame) : frame :=
  {| rows := rows f;
     Location_categories := Location_categories f;
     Tenure_Group := Tenure_Group f;
     Discount_Group := Some col |}.

Definition setitem_Tenure_Group (l : nat) (col : list (option string)) : M unit :=
  λ h, f ← h !! l; Some (tt, <[l := set_Tenure_Group col f]> h).

Definition setitem_Discount_Group (l : nat) (col : list (option string)) : M unit :=
  λ h, f ← h !! l; Some (tt, <[l := set_Discount_Group col f]> h).

(** [x[name]] on one of the two added columns: a [KeyError] when the column
    was never assigned. *)
Definition getitem_col (col : option (list (option string)))
  : M (list (option string)) :=
  λ h, c ← col; Some (c, h).

(** [x.head(n).to_dict('records')]: one record per row, with every column
    the frame has at that point. *)
Record record := {
  rec_row : row;
  rec_Tenure_Group : option (option string);
  rec_Discount_Group : option (option string)
}.

Definition to_records (f : frame) : list record :=
  imap (λ i r, {| rec_row := r;
                  rec_Tenure_Group := c ← Tenure_Group f; c !! i;
                  rec_Discount_Group := c ← Discount_Group f; c !! i |})
       (rows f).

Definition head (n : nat) (f : frame) : frame :=
  {| rows := take n (rows f);
     Location_categories := Location_categories f;
     Tenure_Group := take n <$> Tenure_Group f;
     Discount_Group := take n <$> Discount_Group f |}.

(** Python truth of a dropdown value: [None] and the empty list are false. *)
Definition truthy (v : option (list string)) : bool :=
  match v with
  | Some (_ :: _) => true
  | _ => false
  end.

(** ** [update_graphs] (lines 223-292) *)

(** The tables the nine outputs are made of: the frame each figure is drawn
    from, and [table_data]. *)
Record outputs := {
  monthly_sales : list (Z * Q);
  category_revenue : list (string * Q);
  top_products : list (string * Q);
  gender_spending : list (string * (Q * Q));
  tenure_spending : list (string * option Q);
  location_spending : list (string * Q);
  coupon_effect : list (string * option Q);
  discount_impact : list (string * option Q);
  table_data : list record
}.

Definition tenure_bins : list edge :=
  [Finite 0; Finite 6; Finite 12; Finite 24; Finite 36; PosInf].
Definition tenure_labels : list string :=
  ["0-6"; "7-12"; "13-24"; "25-36"; "36+"]%string.
Definition discount_bins : list edge :=
  [Finite 0; Finite 5; Finite 10; Finite 15; Finite 20; Finite 100].
Definition discount_labels : list string :=
  ["0-5%"; "5-10%"; "10-15%"; "15-20%"; "20%+"]%string.

Definition col {A} (c : row → A) (f : frame) : list A := map c (rows f).

(** The callback.  [df] is the address of the object the global name [df] is
    bound to; [categories] and [locations] are the values of the two
    dropdowns ([None], or a list of option values). *)
Definition update_graphs (df : nat) (categories locations : option (list string))
  : M outputs :=
  filtered_df ← frame_copy df;
  filtered_df ←
    (if truthy categories then
       f ← get filtered_df;
       getitem_mask filtered_df (isin (col Product_Category f) (default [] categories))
     else mret filtered_df);
  filtered_df ←
    (if truthy locations then
       f ← get filtered_df;
       getitem_mask filtered_df
         (isin (col (λ r, Some (Location r)) f) (default [] locations))
     else mret filtered_df);
  (* Monthly sales trend *)
  f ← get filtered_df;
  let monthly_sales := groupby_month_sum (col Transaction_Date f) (col Revenue f) in
  (* Category revenue *)
  let category_revenue :=
    sort_values_desc (groupby_agg sum_skipna (col Product_Category f) (col Revenue f)) in
  (* Top products *)
  let top_products :=
    take 10 (sort_values_desc
               (groupby_agg sum_skipna (col Product_Description f) (col Quantity f))) in
  (* Gender spending *)
  let gender_spending :=
    map (λ k, (k, (sum_skipna (group_values k (col Gender f) (col Online_Spend f)),
                   sum_skipna (group_values k (col Gender f) (col Offline_Spend f)))))
        (group_keys (col Gender f)) in
  (* Tenure spending *)
  _ ← setitem_Tenure_Group filtered_df (cut (col Tenure_Months f) tenure_bins tenure_labels);
  f ← get filtered_df;
  tenure_group ← getitem_col (Tenure_Group f);
  let tenure_spending :=
    groupby_cat_agg mean_skipna tenure_labels tenure_group (col Total_Spend f) in
  (* Location spending *)
  let location_spending :=
    sort_values_desc
      (groupby_cat_agg sum_skipna (Location_categories f)
         (col (λ r, Some (Location r)) f) (col Total_Spend f)) in
  (* Coupon effectiveness *)
  let coupon_effect := groupby_agg mean_skipna (col Coupon_Status f) (col Revenue f) in
  (* Discount impact *)
  _ ← setitem_Discount_Group filtered_df
        (cut (col Discount_pct f) discount_bins discount_labels);
  f ← get filtered_df;
  discount_group ← getitem_col (Discount_Group f);
  let discount_impact :=
    groupby_cat_agg mean_skipna discount_labels discount_group (col Revenue f) in
  (* Transaction table *)
  let table_data := to_records (head 100 f) in
  mret {| monthly_sales := monthly_sales;
          category_revenue := category_revenue;
          top_products := top_products;
          gender_spending := gender_spending;
          tenure_spending := tenure_spending;
          location_spending := location_spending;
          coupon_effect := coupon_effect;
          discount_impact := discount_impact;
          table_data := table_data |}.

(** * Notions used to state what the callback does *)

(** [live h0 h l f]: every object of the heap [h0] the call started in is
    unchanged in [h], and [l] is an object made since, holding [f]. *)
Definition live (h0 h : heap) (l : nat) (f : frame) : Prop :=
  (∀ k x, h0 !! k = Some x → h !! k = Some x) ∧ h0 !! l = None ∧ h !! l = Some f.

(** ** The tables, as functions of the table [df] holds *)

(** One of the two [if values:] statements of lines 227-231. *)
Definition filter_step (values : option (list string)) (key : row → option string)
    (f : frame) : frame :=
  if truthy values then frame_select (isin (col key f) (default [] values)) f else f.

(** [filtered_df] after line 231. *)
Definition filtered_frame (t : frame) (categories locations : option (list string))
  : frame :=
  filter_step locations (λ r, Some (Location r))
    (filter_step categories Product_Category t).

(** [filtered_df] after line 282. *)
Definition final_frame (f : frame) : frame :=
  {| rows := rows f;
     Location_categories := Location_categories f;
     Tenure_Group := Some (cut (col Tenure_Months f) tenure_bins tenure_labels);
     Discount_Group := Some (cut (col Discount_pct f) discount_bins discount_labels) |}.

(** The nine tables, from [filtered_df] as it is after line 231. *)
Definition outputs_of (f : frame) : outputs :=
  {| monthly_sales := groupby_month_sum (col Transaction_Date f) (col Revenue f);
     category_revenue :=
       sort_values_desc
         (groupby_agg sum_skipna (col Product_Category f) (col Revenue f));
     top_products :=
       take 10 (sort_values_desc
                  (groupby_agg sum_skipna (col Product_Description f) (col Quantity f)));
     gender_spending :=
       map (λ k, (k, (sum_skipna (group_values k (col Gender f) (col Online_Spend f)),
                      sum_skipna (group_values k (col Gender f) (col Offline_Spend f)))))
           (group_keys (col Gender f));
     tenure_spending :=
       groupby_cat_agg mean_skipna tenure_labels
         (cut (col Tenure_Months f) tenure_bins tenure_labels) (col Total_Spend f);
     location_spending :=
       sort_values_desc
         (groupby_cat_agg sum_skipna (Location_categories f)
            (col (λ r, Some (Location r)) f) (col Total_Spend f));
     coupon_effect := groupby_agg mean_skipna (col Coupon_Status f) (col Revenue f);
     discount_impact :=
       groupby_cat_agg mean_skipna discount_labels
         (cut (col Discount_pct f) discount_bins discount_labels) (col Revenue f);
     table_data := to_records (head 100 (final_frame f)) |}.

(** ** The filtered view *)

(** The filter as the specification words it: a row is kept when its
    category is among the selected ones, if any is selected, and its location
    is among the selected ones, if any is selected. *)
Definition matches (categories locations : option (list string)) (r : row) : bool :=
  (negb (truthy categories) || cell_in (default [] categories) (Product_Category r))
  && (negb (truthy locations) || cell_in (default [] locations) (Some (Location r))).

Definition FilteredView (t : frame) (categories locations : option (list string))
  : list row :=
  filter (λ r, matches categories locations r) (rows t).

(** ** A small table, used to run the definitions *)

Definition sample_row (category : option string) (location : string) (d : date)
    (price tenure discount : Q) : row :=
  {| Transaction_ID := Some 1; CustomerID := Some 1;
     Transaction_Date := Some d; Date := Some d;
     Product_Category := category; Product_Description := category;
     Gender := Some "F"%string; Location := location;
     Tenure_Months := Some tenure; Quantity := Some 1%Q; Avg_Price := Some price;
     Online_Spend := Some price; Offline_Spend := Some 0%Q;
     Discount_pct := Some discount; Coupon_Status := Some "Used"%string;
     Total_Spend := add_cells (Some 0%Q) (Some price);
     Revenue := mul_cells (Some 1%Q) (Some price);
     other := [] |}.

(** Three rows: category B in January 2020, category A in March 2020, and a
    row without a category in March 2020. *)
Definition sample : frame :=
  {| rows := [ sample_row (Some "B"%string) "Chicago" (mkDate 2020 1 15) 5 0 0;
               sample_row (Some "A"%string) "Boston" (mkDate 2020 3 20) 5 6 5;
               sample_row None "Chicago" (mkDate 2020 3 1) 3 7 (51 # 10) ];
     Location_categories := ["Boston"; "Chicago"]%string;
     Tenure_Group := None;
     Discount_Group := None |}.

(** ** Rows left out of an aggregate *)




(** ** More tables to run the definitions on *)

(** One customer who joined this month: tenure 0, total spend 5. *)
Definition new_customer : frame :=
  {| rows := [ sample_row (Some "A"%string) "Boston" (mkDate 2020 3 20) 5 0 0 ];
     Location_categories := ["Boston"]%string;
     Tenure_Group := None;
     Discount_Group := None |}.


(** ** Order of a sorted table *)




(** ** Two lines of a file, used to run the load *)

(** A parser that knows one date. *)
Definition parse_sample (s : string) : option date :=
  if decide (s = "2020-01-15"%string) then Some (mkDate 2020 1 15) else None.

Definition sample_csv_row (quantity price online offline : option Q) : csv_row :=
  {| csv_Transaction_ID := Some 1; csv_CustomerID := Some 1;
     csv_Transaction_Date := Some "2020-01-15"%string;
     csv_Date := Some "2020-01-15"%string;
     csv_Product_Category := Some "A"%string;
     csv_Product_Description := Some "A"%string;
     csv_Gender := Some "F"%string; csv_Location := Some "boston"%string;
     csv_Tenure_Months := Some 6%Q; csv_Quantity := quantity; csv_Avg_Price := price;
     csv_Online_Spend := online; csv_Offline_Spend := offline;
     csv_Discount_pct := Some 5%Q; csv_Coupon_Status := Some "Used"%string;
     csv_other := [] |}.

(** A line with a negative quantity and a negative online spend, and a line
    whose online spend is missing. *)
Definition sample_csv : list csv_row :=
  [ sample_csv_row (Some (-2)%Q) (Some 3%Q) (Some (-5)%Q) (Some 0%Q);
    sample_csv_row (Some 1%Q) (Some 3%Q) None (Some 4%Q) ].



(** The three rows of the worked example of the specification: category A
    with revenue 10 on 2020-01-15, B with 5 on 2020-01-20, A with 3 on
    2020-02-01. *)
Definition worked_example : frame :=
  {| rows := [ sample_row (Some "A"%string) "Boston" (mkDate 2020 1 15) 10 6 5;
               sample_row (Some "B"%string) "Boston" (mkDate 2020 1 20) 5 6 5;
               sample_row (Some "A"%string) "Boston" (mkDate 2020 2 1) 3 6 5 ];
     Location_categories := ["Boston"]%string;
     Tenure_Group := None;
     Discount_Group := None |}.

(** * The rest of the module: the values of the layout (lines 30-33, 75, 83
      and 191) *)

(** [col.dropna()] *)
Definition dropna {A} (col : list (option A)) : list A := omap id col.

(** [col.unique()]: the distinct values, in the order of their first
    appearance. *)
Fixpoint unique (l : list string) : list string :=
  match l with
  | [] => []
  | x :: l' => x :: filter (λ y, y ≠ x) (unique l')
  end.

(** Python's [sorted] on a list of texts: ascending, an element going before
    the equal ones already placed. *)
Fixpoint insert_sorted (x : string) (l : list string) : list string :=
  match l with
  | [] => [x]
  | y :: l' => if String.leb x y then x :: l else y :: insert_sorted x l'
  end.

Definition sorted (l : list string) : list string := foldr insert_sorted [] l.

(** The option values of the two dropdowns:
    [sorted(df[col].dropna().unique())] (lines 75 and 83). *)
Definition category_options (t : frame) : list string :=
  sorted (unique (dropna (col Product_Category t))).




(** [total_customers] (line 32): [nunique()] counts the distinct values that
    are not missing. *)
Definition nunique (l : list (option Z)) : nat := length (remove_dups (dropna l)).

Definition total_customers (t : frame) : nat := nunique (col CustomerID t).

(** [avg_order_value] (line 31):
    [df.groupby('Transaction_ID')['Revenue'].sum().mean()].  The groups are
    the distinct identifiers in ascending order, rows without an identifier
    left out; the value is the mean of the revenue sums of the groups. *)
Fixpoint order_values (k : Z) (ids : list (option Z)) (vals : list (option Q))
  : list (option Q) :=
  match ids, vals with
  | id :: ids', v :: vals' =>
      if decide (id = Some k) then v :: order_values k ids' vals'
      else order_values k ids' vals'
  | _, _ => []
  end.

Definition order_ids (ids : list (option Z)) : list Z :=
  merge_sort Z.le (remove_dups (dropna ids)).

Definition order_totals (t : frame) : list (Z * Q) :=
  map (λ k, (k, sum_skipna (order_values k (col Transaction_ID t) (col Revenue t))))
      (order_ids (col Transaction_ID t)).

Definition avg_order_value (t : frame) : option Q :=
  mean_skipna (map (λ p, Some (snd p)) (order_totals t)).


(** ** Notions used to state properties of the tables *)


(** Ascending texts without repetition. *)
Definition ascending (l : list string) : Prop :=
  StronglySorted (λ a b, String.compare a b = Lt) l.



(** * Properties *)

(** A goal about every row of a table that is written out: one goal per
    row, each given to [tac]. *)
Ltac on_each_row tac :=
  refine (proj1 (Forall_forall _ _) _); cbn;
  repeat (apply List.Forall_cons; [try tac|]); try apply List.Forall_nil.

(** A decidable closed goal, by evaluation. *)
Ltac decide_it := apply (bool_decide_unpack _); vm_compute; exact I.

(** ** The definitions at work *)

(** The load title-cases the location, parses the dates and derives the two
    columns. *)
Example load_sample_csv :
  (λ t, map (λ r, (Location r, Transaction_Date r, Total_Spend r, Revenue r)) (rows t))
    <$> load parse_sample sample_csv
  = Some [("Boston"%string, Some (mkDate 2020 1 15), Some (-5)%Q, Some (-6)%Q);
          ("Boston"%string, Some (mkDate 2020 1 15), None, Some 3%Q)].
Proof. reflexivity. Qed.

Example load_unparsable_date :
  load (λ _, None) sample_csv = None.
Proof. reflexivity. Qed.

(** The worked example of the specification. *)
Example worked_example_tables :
  (λ out, (category_revenue out, monthly_sales out))
    <$> (fst <$> update_graphs 0 None None {[ 0%nat := worked_example ]})
  = Some ([("A", 13%Q); ("B", 5%Q)]%string,
          [(month_index (mkDate 2020 1 1), 15%Q); (month_index (mkDate 2020 2 1), 3%Q)]).
Proof. reflexivity. Qed.

(** The unfiltered call on the sample table. *)
Example sample_tables :
  (λ out, (tenure_spending out, discount_impact out, location_spending out))
    <$> (fst <$> update_graphs 0 None None {[ 0%nat := sample ]})
  = Some ([("0-6", Some 5%Q); ("7-12", Some 3%Q); ("13-24", None); ("25-36", None);
           ("36+", None)]%string,
          [("0-5%", Some 5%Q); ("5-10%", Some 3%Q); ("10-15%", None);
           ("15-20%", None); ("20%+", None)]%string,
          [("Chicago", 8%Q); ("Boston", 5%Q)]%string).
Proof. reflexivity. Qed.

Example title_words : title "new yORK city" = "New York City"%string.
Proof. reflexivity. Qed.

(** ** The heap: which objects a call touches *)

Lemma bind_run {A B} (m : M A) (k : A → M B) h x h1 :
  m h = Some (x, h1) → (m ≫= k) h = k x h1.
Proof. intros Hm. unfold mbind, M_bind. by rewrite Hm. Qed.

Lemma get_run l h f : h !! l = Some f → get l h = Some (f, h).
Proof. intros Hl. unfold get. by rewrite Hl. Qed.

Lemma setitem_Tenure_Group_run l c h f :
  h !! l = Some f →
  setitem_Tenure_Group l c h = Some (tt, <[l := set_Tenure_Group c f]> h).
Proof. intros Hl. unfold setitem_Tenure_Group. by rewrite Hl. Qed.

Lemma setitem_Discount_Group_run l c h f :
  h !! l = Some f →
  setitem_Discount_Group l c h = Some (tt, <[l := set_Discount_Group c f]> h).
Proof. intros Hl. unfold setitem_Discount_Group. by rewrite Hl. Qed.

Lemma getitem_col_run c h : getitem_col (Some c) h = Some (c, h).
Proof. done. Qed.

Lemma alloc_live h0 h f :
  (∀ k x, h0 !! k = Some x → h !! k = Some x) →
  ∃ l h', alloc f h = Some (l, h') ∧ live h0 h' l f.
Proof.
  intros Hsub. exists (fresh (dom h)), (<[fresh (dom h) := f]> h).
  split; [done|].
  assert (Hfresh : h !! fresh (dom h) = None).
  { apply not_elem_of_dom, is_fresh. }
  repeat split.
  - intros k x Hk. rewrite lookup_insert_ne; [by apply Hsub|].
    intros Heq. subst k. apply Hsub in Hk. congruence.
  - destruct (h0 !! fresh (dom h)) as [x|] eqn:E; [|done].
    apply Hsub in E. congruence.
  - apply lookup_insert_eq.
Qed.

Lemma frame_copy_live h df t :
  h !! df = Some t → ∃ l h', frame_copy df h = Some (l, h') ∧ live h h' l t.
Proof.
  intros Hdf. destruct (alloc_live h h t) as (l & h' & Ha & Hl); [done|].
  exists l, h'. split; [|done].
  unfold frame_copy. by rewrite (bind_run _ _ _ _ _ (get_run _ _ _ Hdf)).
Qed.

Lemma getitem_mask_live h0 h l f mask :
  live h0 h l f →
  ∃ l' h', getitem_mask l mask h = Some (l', h') ∧ live h0 h' l' (frame_select mask f).
Proof.
  intros (Hsub & _ & Hl).
  destruct (alloc_live h0 h (frame_select mask f)) as (l' & h' & Ha & Hl'); [done|].
  exists l', h'. split; [|done].
  unfold getitem_mask. by rewrite (bind_run _ _ _ _ _ (get_run _ _ _ Hl)).
Qed.

Lemma insert_live h0 h l f f' : live h0 h l f → live h0 (<[l := f']> h) l f'.
Proof.
  intros (Hsub & Hnew & Hl). repeat split; [|done|apply lookup_insert_eq].
  intros k x Hk. rewrite lookup_insert_ne; [by apply Hsub|].
  intros Heq. subst k. congruence.
Qed.

Lemma filter_step_live h0 h l f values key :
  live h0 h l f →
  ∃ l' h',
    (if truthy values then
       f ← get l; getitem_mask l (isin (col key f) (default [] values))
     else mret l) h = Some (l', h')
    ∧ live h0 h' l' (filter_step values key f).
Proof.
  intros Hlive. unfold filter_step. destruct (truthy values).
  - destruct (getitem_mask_live h0 h l f (isin (col key f) (default [] values)) Hlive)
      as (l' & h' & Hg & Hl').
    exists l', h'. split; [|done].
    destruct Hlive as (_ & _ & Hl).
    by rewrite (bind_run _ _ _ _ _ (get_run _ _ _ Hl)).
  - by exists l, h.
Qed.

(** A call of [update_graphs] never raises when [df] is bound to a frame; it
    returns the tables of [outputs_of] on the filtered frame, and leaves every
    object of the heap it started in as it was. *)
Lemma update_graphs_run h df t categories locations :
  h !! df = Some t →
  ∃ h', update_graphs df categories locations h
        = Some (outputs_of (filtered_frame t categories locations), h')
      ∧ ∀ k x, h !! k = Some x → h' !! k = Some x.
Proof.
  intros Hdf. unfold update_graphs.
  destruct (frame_copy_live h df t Hdf) as (l0 & h0 & E0 & L0).
  rewrite (bind_run _ _ _ _ _ E0).
  destruct (filter_step_live h h0 l0 t categories Product_Category L0)
    as (l1 & h1 & E1 & L1).
  rewrite (bind_run _ _ _ _ _ E1).
  destruct (filter_step_live h h1 l1 _ locations (λ r, Some (Location r)) L1)
    as (l2 & h2 & E2 & L2).
  rewrite (bind_run _ _ _ _ _ E2).
  fold (filtered_frame t categories locations) in L2.
  set (f := filtered_frame t categories locations) in *.
  pose proof L2 as (_ & _ & G2).
  rewrite (bind_run _ _ _ _ _ (get_run _ _ _ G2)).
  rewrite (bind_run _ _ _ _ _ (setitem_Tenure_Group_run _ _ _ _ G2)).
  pose proof (insert_live h h2 l2 f (set_Tenure_Group
    (cut (col Tenure_Months f) tenure_bins tenure_labels) f) L2) as L3.
  pose proof L3 as (_ & _ & G3).
  rewrite (bind_run _ _ _ _ _ (get_run _ _ _ G3)).
  cbn [Tenure_Group Discount_Group set_Tenure_Group set_Discount_Group].
  rewrite (bind_run _ _ _ _ _ (getitem_col_run _ _)).
  rewrite (bind_run _ _ _ _ _ (setitem_Discount_Group_run _ _ _ _ G3)).
  match goal with |- context [<[l2 := ?f']> (<[l2 := ?f3]> h2)] =>
    pose proof (insert_live h _ l2 _ f' L3) as L4 end.
  pose proof L4 as (S4 & _ & G4).
  rewrite (bind_run _ _ _ _ _ (get_run _ _ _ G4)).
  cbn [Tenure_Group Discount_Group set_Tenure_Group set_Discount_Group].
  rewrite (bind_run _ _ _ _ _ (getitem_col_run _ _)).
  eexists. split; [reflexivity|]. exact S4.
Qed.

Lemma select_map {A} (p : A → bool) (l : list A) :
  select (map p l) l = filter (λ x, p x) l.
Proof.
  induction l as [|x l IH]; [done|]. simpl. rewrite IH.
  destruct (p x) eqn:E.
  - rewrite filter_cons_True; [done|]. cbv beta. by rewrite E.
  - rewrite filter_cons_False; [done|]. cbv beta. rewrite E. exact id.
Qed.

Lemma filter_everything {A} (P : A → Prop) `{∀ x, Decision (P x)} (l : list A) :
  (∀ x, x ∈ l → P x) → filter P l = l.
Proof.
  induction l as [|x l IH]; intros Hall; [done|].
  rewrite filter_cons_True by (apply Hall; left).
  f_equal. apply IH. intros y Hy. apply Hall. by right.
Qed.

Lemma rows_filter_step values key f :
  rows (filter_step values key f)
  = filter (λ r, negb (truthy values) || cell_in (default [] values) (key r)) (rows f).
Proof.
  unfold filter_step. destruct (truthy values); simpl.
  - unfold isin, col. rewrite map_map.
    apply (select_map (λ r, cell_in (default [] values) (key r))).
  - symmetry. by apply filter_everything.
Qed.

Lemma rows_filtered_frame t categories locations :
  rows (filtered_frame t categories locations) = FilteredView t categories locations.
Proof.
  unfold filtered_frame, FilteredView. rewrite !rows_filter_step, list_filter_filter.
  apply list_filter_iff. intros r. unfold matches.
  rewrite andb_True. tauto.
Qed.

Lemma Location_categories_filtered_frame t categories locations :
  Location_categories (filtered_frame t categories locations) = Location_categories t.
Proof.
  unfold filtered_frame, filter_step.
  by destruct (truthy categories), (truthy locations).
Qed.


(** ** The source table is never changed *)



(** ** The row preview *)


Lemma imap_map {A B} (f : nat → A → B) (g : A → B) (l : list A) :
  (∀ i x, l !! i = Some x → f i x = g x) → imap f l = map g l.
Proof.
  intros Hfg. transitivity (imap (const g) l).
  - by apply imap_ext.
  - apply imap_const.
Qed.

Lemma lookup_take_map {A B} (g : A → B) (n i : nat) (l : list A) (x : A) :
  take n l !! i = Some x → take n (map g l) !! i = Some (g x).
Proof.
  intros Hi. change (map g l) with (g <$> l).
  by rewrite <- fmap_take, list_lookup_fmap, Hi.
Qed.

(** The records of [head(n).to_dict('records')] on the frame of line 289: the
    first [n] rows, each with its two group cells. *)
Lemma to_records_head_final n f :
  to_records (head n (final_frame f))
  = map (λ r, {| rec_row := r;
                 rec_Tenure_Group :=
                   Some (cut1 tenure_bins tenure_labels (Tenure_Months r));
                 rec_Discount_Group :=
                   Some (cut1 discount_bins discount_labels (Discount_pct r)) |})
        (take n (rows f)).
Proof.
  unfold to_records, head, final_frame, cut, col. simpl.
  apply imap_map. intros i r Hi.
  rewrite !map_map.
  rewrite (lookup_take_map (λ r, cut1 tenure_bins tenure_labels (Tenure_Months r)) _ _ _ _ Hi).
  by rewrite (lookup_take_map (λ r, cut1 discount_bins discount_labels (Discount_pct r)) _ _ _ _ Hi).
Qed.



(** ** No filter against a filter that names everything *)





(** ** The two bucketings *)

Lemma Qle_bool_false (a b : Q) : Qle_bool a b = false → (b < a)%Q.
Proof.
  intros Hf. apply Qnot_le_lt. intros Hle.
  apply Qle_bool_iff in Hle. congruence.
Qed.


(** [pd.cut] with the bins of line 259. *)
Lemma cut1_tenure (q : Q) :
  cut1 tenure_bins tenure_labels (Some q)
  = if Qle_bool q 0 then None
    else if Qle_bool q 6 then Some "0-6"%string
    else if Qle_bool q 12 then Some "7-12"%string
    else if Qle_bool q 24 then Some "13-24"%string
    else if Qle_bool q 36 then Some "25-36"%string
    else Some "36+"%string.
Proof.
  unfold cut1, tenure_bins, tenure_labels, searchsorted_left, edge_ltb, Qltb.
  destruct (Qle_bool q 0); [done|]. destruct (Qle_bool q 6); [done|].
  destruct (Qle_bool q 12); [done|]. destruct (Qle_bool q 24); [done|].
  by destruct (Qle_bool q 36).
Qed.

(** Every comparison of a cascade, decided and turned into an inequality. *)
Ltac cascade q :=
  repeat match goal with
         | |- context [Qle_bool q ?b] =>
             let E := fresh "E" in
             destruct (Qle_bool q b) eqn:E;
             [apply Qle_bool_iff in E | apply Qle_bool_false in E]
         end.



Lemma cut1_tenure_None (q : Q) :
  cut1 tenure_bins tenure_labels (Some q) = None ↔ (q <= 0)%Q.
Proof.
  rewrite cut1_tenure. cascade q; split; intros H; try done; lra.
Qed.

(** ** Rows that reach no bucket do not count *)








(** C2, what the code does.  [pd.cut] is called without
    [include_lowest=True]: a tenure of 6 gets "0-6" and a tenure of 7 gets
    "7-12", but a tenure of 0 gets no bucket, for all that the first label
    reads "0-6"; the values without a bucket are those at or below 0, not
    the negative ones only.  A table of one customer with tenure 0 and a
    total spend of 5 has no value in any bucket. *)
Theorem tenure_zero_gets_no_bucket :
  cut1 tenure_bins tenure_labels (Some 0%Q) = None
  ∧ cut1 tenure_bins tenure_labels (Some 6%Q) = Some "0-6"%string
  ∧ cut1 tenure_bins tenure_labels (Some 7%Q) = Some "7-12"%string
  ∧ (∀ q, cut1 tenure_bins tenure_labels (Some q) = None ↔ (q <= 0)%Q)
  ∧ ∃ out h',
      update_graphs 0 None None {[ 0%nat := new_customer ]} = Some (out, h')
      ∧ tenure_spending out
        = [("0-6", None); ("7-12", None); ("13-24", None); ("25-36", None);
           ("36+", None)]%string.
Proof.
  do 3 (split; [reflexivity|]). split; [apply cut1_tenure_None|].
  destruct (update_graphs_run {[ 0%nat := new_customer ]} 0 new_customer None None
              (lookup_singleton_eq _ _)) as (h' & Hrun & _).
  eexists _, h'. split; [exact Hrun|]. reflexivity.
Qed.

(** ** The monthly sales trend *)











(** ** The two sorted tables *)



Lemma insert_desc_perm {A} (x : A * Q) l : insert_desc x l ≡ₚ x :: l.
Proof.
  induction l as [|y l IH]; simpl; [done|].
  destruct (Qltb (snd x) (snd y)); [|done].
  rewrite IH. apply Permutation_swap.
Qed.

Lemma sort_values_desc_perm {A} (l : list (A * Q)) : sort_values_desc l ≡ₚ l.
Proof.
  unfold sort_values_desc. induction l as [|x l IH]; simpl; [done|].
  by rewrite insert_desc_perm, IH.
Qed.






(** ** The load *)






(** ** An empty filtered view *)

(** C4, as the code has it.  When no row passes the filter the call still
    returns.  The tables grouped on a text column (monthly trend, category
    revenue, top products, gender spending, coupon effectiveness) and the row
    preview are empty.  The tables grouped on a categorical column are not:
    tenure spending and discount impact have one entry per bucket label, each
    without a value, the mean of no rows; location spending has one entry
    per location of the loaded table, each with sum 0. *)
Theorem empty_view_outputs h df t categories locations :
  h !! df = Some t →
  FilteredView t categories locations = [] →
  ∃ out h', update_graphs df categories locations h = Some (out, h')
    ∧ monthly_sales out = [] ∧ category_revenue out = [] ∧ top_products out = []
    ∧ gender_spending out = [] ∧ coupon_effect out = [] ∧ table_data out = []
    ∧ tenure_spending out = map (λ k, (k, None)) tenure_labels
    ∧ discount_impact out = map (λ k, (k, None)) discount_labels
    ∧ location_spending out ≡ₚ map (λ k, (k, 0%Q)) (Location_categories t)
    ∧ mean_skipna [] = None.
Proof.
  intros Hdf Hempty.
  destruct (update_graphs_run h df t categories locations Hdf) as (h' & Hrun & _).
  eexists _, h'. split; [exact Hrun|].
  pose proof (rows_filtered_frame t categories locations) as Hrows.
  rewrite Hempty in Hrows.
  cbn [monthly_sales category_revenue top_products gender_spending coupon_effect
         table_data tenure_spending discount_impact location_spending outputs_of].
  rewrite to_records_head_final, Location_categories_filtered_frame.
  unfold col. rewrite Hrows. simpl.
  repeat (split; [reflexivity|]). split; [|reflexivity].
  rewrite sort_values_desc_perm. unfold groupby_cat_agg. done.
Qed.

Lemma empty_view_outputs_sample :
  ∃ out h', update_graphs 0 (Some ["Z"%string]) None {[ 0%nat := sample ]}
            = Some (out, h')
    ∧ monthly_sales out = [] ∧ category_revenue out = [] ∧ top_products out = []
    ∧ gender_spending out = [] ∧ coupon_effect out = [] ∧ table_data out = []
    ∧ tenure_spending out = map (λ k, (k, None)) tenure_labels
    ∧ discount_impact out = map (λ k, (k, None)) discount_labels
    ∧ location_spending out ≡ₚ map (λ k, (k, 0%Q)) (Location_categories sample)
    ∧ mean_skipna [] = None.
Proof.
  apply (empty_view_outputs {[ 0%nat := sample ]} 0 sample (Some ["Z"%string]) None);
    reflexivity.
Defined.

(** C4 as stated fails: with the category filter on "Z", which no row of the
    sample table has, the filtered view is empty and three of the tables are
    not. *)
Lemma empty_view_tables_not_empty :
  FilteredView sample (Some ["Z"%string]) None = []
  ∧ ∃ out h', update_graphs 0 (Some ["Z"%string]) None {[ 0%nat := sample ]}
              = Some (out, h')
      ∧ tenure_spending out
        = [("0-6", None); ("7-12", None); ("13-24", None); ("25-36", None);
           ("36+", None)]%string
      ∧ discount_impact out
        = [("0-5%", None); ("5-10%", None); ("10-15%", None); ("15-20%", None);
           ("20%+", None)]%string
      ∧ ("Boston"%string, 0%Q) ∈ location_spending out
      ∧ ("Chicago"%string, 0%Q) ∈ location_spending out
      ∧ tenure_spending out ≠ [] ∧ discount_impact out ≠ []
      ∧ location_spending out ≠ [].
Proof.
  split; [reflexivity|].
  destruct (update_graphs_run {[ 0%nat := sample ]} 0 sample (Some ["Z"%string]) None
              (lookup_singleton_eq _ _)) as (h' & Hrun & _).
  eexists _, h'. split; [exact Hrun|].
  assert (Hloc : location_spending
                   (outputs_of (filtered_frame sample (Some ["Z"%string]) None))
                 = [("Boston", 0%Q); ("Chicago", 0%Q)]%string) by reflexivity.
  do 2 (split; [reflexivity|]). rewrite Hloc.
  split; [left|]. split; [right; left|]. repeat split; discriminate.
Qed.

(** * The rest of the module *)

(** ** The order on texts *)

Lemma ascii_compare_lt_trans (a b c : ascii) :
  Ascii.compare a b = Lt → Ascii.compare b c = Lt → Ascii.compare a c = Lt.
Proof.
  unfold Ascii.compare. rewrite !N.compare_lt_iff. lia.
Qed.

Lemma string_compare_lt_trans (s1 s2 s3 : string) :
  String.compare s1 s2 = Lt → String.compare s2 s3 = Lt → String.compare s1 s3 = Lt.
Proof.
  revert s2 s3. induction s1 as [|c1 s1 IH]; intros [|c2 s2] [|c3 s3]; simpl; try done.
  destruct (Ascii.compare c1 c2) eqn:E12; try done;
    destruct (Ascii.compare c2 c3) eqn:E23; try done.
  - apply Ascii.compare_eq_iff in E12, E23. subst.
    assert (Ascii.compare c3 c3 = Eq) as ->.
    { unfold Ascii.compare. apply N.compare_refl. }
    apply IH.
  - apply Ascii.compare_eq_iff in E12. subst. by rewrite E23.
  - apply Ascii.compare_eq_iff in E23. subst. by rewrite E12.
  - by rewrite (ascii_compare_lt_trans _ _ _ E12 E23).
Qed.

Lemma string_compare_refl (s : string) : String.compare s s = Eq.
Proof.
  induction s as [|c s IH]; simpl; [done|].
  assert (Ascii.compare c c = Eq) as ->; [|done].
  unfold Ascii.compare. apply N.compare_refl.
Qed.

Lemma string_compare_gt_lt (s1 s2 : string) :
  String.compare s1 s2 = Gt → String.compare s2 s1 = Lt.
Proof.
  intros H. rewrite String.compare_antisym, H. done.
Qed.

Lemma string_compare_lt_ne (s1 s2 : string) : String.compare s1 s2 = Lt → s1 ≠ s2.
Proof. intros H ->. by rewrite string_compare_refl in H. Qed.

(** ** The keys of [groupby] *)

Lemma elem_of_insert_key (x k : string) (l : list string) :
  x ∈ insert_key k l ↔ x = k ∨ x ∈ l.
Proof.
  induction l as [|y l IH]; simpl.
  - rewrite list_elem_of_singleton. split; [by left|]. intros [|[]%elem_of_nil]; done.
  - destruct (String.compare k y) eqn:E.
    + apply String.compare_eq_iff in E as ->. split; [by right|].
      intros [->|]; [left|done].
    + rewrite elem_of_cons. tauto.
    + rewrite !elem_of_cons, IH. tauto.
Qed.

Lemma elem_of_group_keys (k : string) (keys : list (option string)) :
  k ∈ group_keys keys ↔ Some k ∈ keys.
Proof.
  unfold group_keys. induction keys as [|[x|] keys IH]; simpl.
  - split; by intros ?%elem_of_nil.
  - change (foldr insert_key [] (x :: omap id keys))
      with (insert_key x (foldr insert_key [] (omap id keys))).
    rewrite elem_of_insert_key, IH, elem_of_cons. split.
    + intros [->|]; [by left|by right].
    + intros [[= ->]|]; [by left|by right].
  - rewrite IH, elem_of_cons. split; [by right|]. by intros [|].
Qed.

Lemma insert_key_ascending (k : string) (l : list string) :
  ascending l → ascending (insert_key k l).
Proof.
  unfold ascending. induction l as [|y l IH]; intros Hs; simpl.
  - by repeat constructor.
  - apply StronglySorted_inv in Hs as [Hl Hy].
    destruct (String.compare k y) eqn:E.
    + by constructor.
    + constructor; [by constructor|]. constructor; [done|].
      eapply Forall_impl; [exact Hy|]. intros z Hz.
      by apply (string_compare_lt_trans k y z).
    + constructor; [by apply IH|].
      apply Forall_forall. intros z Hz. apply elem_of_insert_key in Hz as [->|Hz].
      * by apply string_compare_gt_lt.
      * by apply (proj1 (Forall_forall _ _) Hy).
Qed.

Lemma group_keys_ascending (keys : list (option string)) : ascending (group_keys keys).
Proof.
  unfold group_keys. induction (omap id keys) as [|x l IH]; simpl.
  - constructor.
  - by apply insert_key_ascending.
Qed.

Lemma ascending_NoDup (l : list string) : ascending l → NoDup l.
Proof.
  unfold ascending. induction 1 as [|x l Hl IH Hx]; constructor; [|done].
  intros Hin. apply (proj1 (Forall_forall _ _) Hx) in Hin.
  by apply string_compare_lt_ne in Hin.
Qed.

(** ** The dropdown options *)

Lemma string_leb_spec (a b : string) :
  String.leb a b = true ↔ String.compare a b = Lt ∨ a = b.
Proof.
  unfold String.leb. destruct (String.compare a b) eqn:E.
  - apply String.compare_eq_iff in E. split; [by right|done].
  - split; [by left|done].
  - split; [done|]. intros [| ->]; [done|]. by rewrite string_compare_refl in E.
Qed.

Lemma string_leb_trans (a b c : string) :
  String.leb a b = true → String.leb b c = true → String.leb a c = true.
Proof.
  rewrite !string_leb_spec. intros [Hab| ->] [Hbc| ->]; try (by left); try (by right).
  left. by apply (string_compare_lt_trans a b c).
Qed.

Lemma insert_sorted_perm (x : string) (l : list string) : insert_sorted x l ≡ₚ x :: l.
Proof.
  induction l as [|y l IH]; simpl; [done|].
  destruct (String.leb x y); [done|]. rewrite IH. apply Permutation_swap.
Qed.

Lemma sorted_perm (l : list string) : sorted l ≡ₚ l.
Proof.
  unfold sorted. induction l as [|x l IH]; simpl; [done|].
  by rewrite insert_sorted_perm, IH.
Qed.

Lemma insert_sorted_sorted (x : string) (l : list string) :
  StronglySorted (λ a b, String.leb a b = true) l →
  StronglySorted (λ a b, String.leb a b = true) (insert_sorted x l).
Proof.
  induction l as [|y l IH]; intros Hs; simpl.
  - by repeat constructor.
  - apply StronglySorted_inv in Hs as [Hl Hy].
    destruct (String.leb x y) eqn:E.
    + constructor; [by constructor|]. constructor; [done|].
      eapply Forall_impl; [exact Hy|]. intros z Hz. by apply (string_leb_trans x y z).
    + constructor; [by apply IH|].
      rewrite insert_sorted_perm. constructor; [|done].
      destruct (String.leb_total x y) as [Hxy|Hyx]; [congruence|done].
Qed.

Lemma sorted_sorted (l : list string) :
  StronglySorted (λ a b, String.leb a b = true) (sorted l).
Proof.
  unfold sorted. induction l as [|x l IH]; simpl.
  - constructor.
  - by apply insert_sorted_sorted.
Qed.

Lemma elem_of_unique (x : string) (l : list string) : x ∈ unique l ↔ x ∈ l.
Proof.
  induction l as [|y l IH]; simpl; [done|].
  rewrite !elem_of_cons, list_elem_of_filter, IH.
  destruct (decide (x = y)); [|tauto]. split; [|by left]. by intros [|[]]; [left|].
Qed.

Lemma unique_NoDup (l : list string) : NoDup (unique l).
Proof.
  induction l as [|y l IH]; simpl; constructor.
  - rewrite list_elem_of_filter. by intros [? _].
  - by apply NoDup_filter.
Qed.

Lemma ascending_sorted (l : list string) :
  ascending l → StronglySorted (λ a b, String.leb a b = true) l.
Proof.
  unfold ascending. induction 1 as [|x l Hl IH Hx]; constructor; [done|].
  eapply Forall_impl; [exact Hx|]. intros z Hz. apply string_leb_spec. by left.
Qed.

(** [sorted(col.dropna().unique())] is the list of keys [groupby(col)] makes. *)
Lemma sorted_unique_group_keys (keys : list (option string)) :
  sorted (unique (dropna keys)) = group_keys keys.
Proof.
  apply (StronglySorted_unique_strong (λ a b, String.leb a b = true)).
  - intros x1 x2 _ _. apply String.leb_antisym.
  - apply sorted_sorted.
  - apply ascending_sorted, group_keys_ascending.
  - apply NoDup_Permutation.
    + rewrite sorted_perm. apply unique_NoDup.
    + apply ascending_NoDup, group_keys_ascending.
    + intros x. rewrite sorted_perm, elem_of_unique, elem_of_group_keys.
      unfold dropna. rewrite list_elem_of_omap. split.
      * intros ([y|] & Hy & [= <-]). done.
      * intros Hx. by exists (Some x).
Qed.

(** X1. The options of the category dropdown are the categories that occur in
    the table, each once, in strictly ascending order, and no missing value
    is among them; they are the groups [groupby('Product_Category')] makes on
    the whole table. *)
Theorem category_options_spec (t : frame) :
  ascending (category_options t)
  ∧ NoDup (category_options t)
  ∧ (∀ o, o ∈ category_options t ↔ ∃ r, r ∈ rows t ∧ Product_Category r = Some o)
  ∧ category_options t = group_keys (col Product_Category t).
Proof.
  unfold category_options. rewrite sorted_unique_group_keys.
  split; [apply group_keys_ascending|].
  split; [apply ascending_NoDup, group_keys_ascending|].
  split; [|done].
  intros o. rewrite elem_of_group_keys. unfold col.
  change (map Product_Category (rows t)) with (Product_Category <$> rows t).
  rewrite list_elem_of_fmap. split.
  - intros (r & Hr & Hin). eauto.
  - intros (r & Hin & Hr). eauto.
Qed.





(** ** The normalised location *)




Lemma to_lower_to_upper (c : ascii) : to_lower (to_upper c) = to_lower c.
Proof. destruct c as [[] [] [] [] [] [] [] []]; reflexivity. Qed.







(** ** The loaded table *)




(** ** What the filters show in the two sorted charts *)




(** ** Calls one after the other *)



(** ** The filter lists *)




(** ** The top products *)



(** ** The buckets *)

(** One case of a cascade: the label is the one of the interval, or the
    inequalities at hand exclude the case. *)
Ltac bucket_case :=
  solve [ intros; done
        | intros; congruence
        | intros; lra
        | intros; split; lra
        | intros; exfalso; lra
        | intros [? ?]; exfalso; lra
        | intros [? [=]]
        | intros; by eexists
        | intros; eexists; split; [|reflexivity]; decide_it ].

(** X9. The tenure buckets are the intervals (0, 6], (6, 12], (12, 24],
    (24, 36] and (36, ∞): a tenure above 0 gets exactly the label of the
    interval it lies in, so every tenure above 0 has a bucket, and a tenure
    between two whole months, such as 6.5, goes with the months above it. *)
Theorem tenure_bucket_intervals (q : Q) :
  (cut1 tenure_bins tenure_labels (Some q) = Some "0-6"%string
   ↔ (0 < q)%Q ∧ (q <= 6)%Q)
  ∧ (cut1 tenure_bins tenure_labels (Some q) = Some "7-12"%string
     ↔ (6 < q)%Q ∧ (q <= 12)%Q)
  ∧ (cut1 tenure_bins tenure_labels (Some q) = Some "13-24"%string
     ↔ (12 < q)%Q ∧ (q <= 24)%Q)
  ∧ (cut1 tenure_bins tenure_labels (Some q) = Some "25-36"%string
     ↔ (24 < q)%Q ∧ (q <= 36)%Q)
  ∧ (cut1 tenure_bins tenure_labels (Some q) = Some "36+"%string ↔ (36 < q)%Q)
  ∧ ((0 < q)%Q → ∃ label, label ∈ tenure_labels
                          ∧ cut1 tenure_bins tenure_labels (Some q) = Some label).
Proof.
  rewrite cut1_tenure. cascade q; repeat split; bucket_case.
Qed.


(** ** The two tables of means per bucket *)





(** ** The totals of the charts *)




Section Conservation.

(** A [groupby(key)[val].sum()] over rows of type [R]: [gv k rs] are the
    cells of [val] on the rows of [rs] whose key is [k]. *)
Context {R K : Type} `{EqDecision K}.
Variables (key : R → option K) (val : R → option Q).
Variable gv : K → list R → list (option Q).
Hypothesis gv_nil : ∀ k, gv k [] = [].
Hypothesis gv_cons : ∀ k r rs,
  gv k (r :: rs) = if decide (key r = Some k) then val r :: gv k rs else gv k rs.

(** The key of the row is one of [ks]. *)
Let covered (ks : list K) (r : R) : Prop :=
  match key r with
  | Some k => k ∈ ks
  | None => False
  end.

#[local] Instance covered_dec ks r : Decision (covered ks r).
Proof. unfold covered. destruct (key r); apply _. Defined.




End Conservation.








(** ** The values of the layout and the first call *)





Lemma length_remove_dups_le {A} `{EqDecision A} (l : list A) :
  (length (remove_dups l) ≤ length l)%nat.
Proof.
  induction l as [|x l IH]; simpl; [done|].
  case_match; simpl; lia.
Qed.

Lemma length_omap_le {A B} (f : A → option B) (l : list A) :
  (length (omap f l) ≤ length l)%nat.
Proof.
  induction l as [|x l IH]; [done|]. cbn. destruct (f x); cbn; lia.
Qed.

(** X16. The customer count of the KPI card is the number of distinct
    customer identifiers of the table, rows without an identifier apart:
    it is the length of any list that holds each identifier of the table
    once, and never more than the number of rows. *)
Theorem total_customers_counts_distinct (t : frame) (ids : list Z) :
  NoDup ids →
  (∀ x, x ∈ ids ↔ ∃ r, r ∈ rows t ∧ CustomerID r = Some x) →
  total_customers t = length ids ∧ (total_customers t ≤ length (rows t))%nat.
Proof.
  intros Hnd Hids. unfold total_customers, nunique, dropna, col. split.
  - apply Permutation_length, NoDup_Permutation;
      [apply NoDup_remove_dups|done|].
    intros x. rewrite elem_of_remove_dups, list_elem_of_omap, Hids. split.
    + intros (c & Hc & Hx). simpl in Hx. subst c.
      apply list_elem_of_fmap in Hc as (r & Hr & Hin). eauto.
    + intros (r & Hin & Hr). exists (Some x). split; [|done].
      rewrite <- Hr. by apply (list_elem_of_fmap_2 CustomerID).
  - rewrite <- (length_map CustomerID (rows t)).
    etransitivity; [apply length_remove_dups_le|apply length_omap_le].
Qed.

Lemma total_customers_counts_distinct_sample :
  total_customers sample = length [1] ∧ (total_customers sample ≤ length (rows sample))%nat.
Proof.
  apply (total_customers_counts_distinct sample [1]).
  - apply NoDup_singleton.
  - intros x. rewrite list_elem_of_singleton. split.
    + intros ->. eexists. split; [left|reflexivity].
    + intros (r & Hr & Hx). revert r Hr x Hx.
      on_each_row ltac:(by intros x [= <-]).
Defined.

(** ** The other tables *)









(** ** The average order value *)






Example avg_order_value_sample : avg_order_value sample = Some 13%Q.
Proof. reflexivity. Qed.

(** ** Filtering and grouping *)






